(** * NestedSelect: the navigation and selection state machine

    A shallow embedding of [src/components/NestedSelect.tsx]: the tree
    lookups ([findItem], [findChildren]), the derivation of the visible
    items ([getCurrentItems], [currentItems]) and the event handlers
    ([handleItemClick], [handleBack], [handleClose], [toggleSearch],
    [handleSelectAll], the trigger button and the selected-item effect). *)

From Stdlib Require Import List String Ascii ZArith Bool Lia.
Import ListNotations.
Open Scope string_scope.
Open Scope Z_scope.
Open Scope list_scope.

(** ** Identifiers

    [NavigationItem.id] has type [string | number].  Numeric identifiers
    are integers here. *)

Inductive JsId : Type :=
| IdNum (n : Z)
| IdStr (s : string).

(** [a === b] on identifiers. *)
Definition strictEq (a b : JsId) : bool :=
  match a, b with
  | IdNum n, IdNum m => Z.eqb n m
  | IdStr s, IdStr t => String.eqb s t
  | _, _ => false
  end.

(** JavaScript truthiness of an identifier: [0] and the empty string are
    falsy. *)
Definition truthy (a : JsId) : bool :=
  match a with
  | IdNum n => negb (Z.eqb n 0)
  | IdStr s => negb (String.eqb s "")
  end.

(** Truthiness of [string | number | null]: [null] is falsy. *)
Definition truthyOpt (a : option JsId) : bool :=
  match a with
  | Some i => truthy i
  | None => false
  end.

(** ** Tree nodes

    [NestedItem]: the fields read through [idKey], [labelKey] and
    [childrenKey].  [children] is optional in the source. *)

#[warnings="-register-all"]
Inductive Item : Type :=
  mkItem { itemId : JsId;
           itemLabel : string;
           itemChildren : option (list Item) }.

(** [item[childrenKey] || []] *)
Definition childrenOf (it : Item) : list Item :=
  match itemChildren it with
  | Some cs => cs
  | None => []
  end.

(** Truthiness of [arr.length]. *)
Definition nonEmpty {A : Type} (l : list A) : bool :=
  match l with
  | [] => false
  | _ :: _ => true
  end.

(** [item[childrenKey]?.length > 0] *)
Definition hasChildren (it : Item) : bool := nonEmpty (childrenOf it).

(** Structural induction on trees, the children handled with [Forall]. *)
Section ItemInduction.
Variable P : Item -> Prop.
Hypothesis step_node : forall it, Forall P (childrenOf it) -> P it.

Fixpoint Item_tree_ind (it : Item) : P it :=
  step_node it
    (match it return Forall P (childrenOf it) with
     | mkItem i l c =>
         match c return Forall P (childrenOf (mkItem i l c)) with
         | Some cs =>
             (fix all (l0 : list Item) : Forall P l0 :=
                match l0 with
                | [] => Forall_nil P
                | x :: r => Forall_cons x (Item_tree_ind x) (all r)
                end) cs
         | None => Forall_nil P
         end
     end).
End ItemInduction.

(** ** Tree lookup *)

Section Lookup.
(** The comparison of the lookup: [==] in the selected-item effect,
    [===] in [handleSelectAll]. *)
Variable eqb : JsId -> JsId -> bool.
Variable id : JsId.

(** One iteration of the [for] loop of [findItem]: [Some found] when the
    iteration returns, [None] when the loop goes on to the next item. *)
Fixpoint findItemVisit (item : Item) : option Item :=
  if eqb (itemId item) id then Some item
  else
    match itemChildren item with
    | Some cs =>
        match cs with
        | [] => None
        | _ :: _ =>
            (fix loop (l : list Item) : option Item :=
               match l with
               | [] => None
               | x :: r =>
                   match findItemVisit x with
                   | Some found => Some found
                   | None => loop r
                   end
               end) cs
        end
    | None => None
    end.

(** [findItem(items, id)]; [None] is [null]. *)
Fixpoint findItemBy (items : list Item) : option Item :=
  match items with
  | [] => None
  | item :: rest =>
      match findItemVisit item with
      | Some found => Some found
      | None => findItemBy rest
      end
  end.
End Lookup.

Section Children.
Variable id : JsId.

(** One iteration of the [for] loop of [findChildren]: [Some r] when the
    iteration returns [r], [None] when the loop goes on. *)
Fixpoint findChildrenVisit (item : Item) : option (list Item) :=
  if strictEq (itemId item) id then Some (childrenOf item)
  else
    match itemChildren item with
    | Some cs =>
        match cs with
        | [] => None
        | _ :: _ =>
            let found :=
              (fix loop (l : list Item) : list Item :=
                 match l with
                 | [] => []
                 | x :: r =>
                     match findChildrenVisit x with
                     | Some res => res
                     | None => loop r
                     end
                 end) cs in
            if nonEmpty found then Some found else None
        end
    | None => None
    end.

(** [findChildren(items, id)] *)
Fixpoint findChildren (items : list Item) : list Item :=
  match items with
  | [] => []
  | item :: rest =>
      match findChildrenVisit item with
      | Some res => res
      | None => findChildren rest
      end
  end.
End Children.

(** The nodes of a forest in depth-first pre-order. *)
Fixpoint preorderNode (item : Item) : list Item :=
  item ::
  match itemChildren item with
  | Some cs =>
      (fix all (l : list Item) : list Item :=
         match l with
         | [] => []
         | x :: r => preorderNode x ++ all r
         end) cs
  | None => []
  end.

Fixpoint preorder (items : list Item) : list Item :=
  match items with
  | [] => []
  | item :: rest => preorderNode item ++ preorder rest
  end.

(** ** Widget state *)

(** [NavigationItem] *)
Record NavigationItem : Type :=
  mkNav { navId : JsId;
          navLabel : string;
          navParentId : option JsId }.

(** The five [useState] cells of the component. *)
Record State : Type :=
  mkState { isOpen : bool;
            navigationPath : list NavigationItem;
            searchQuery : string;
            isSearching : bool;
            selectedItem : option Item }.

(** The props the handlers read.  [disableItem] and [filterItems] are
    optional; [onSelect] is recorded as an effect. *)
Record Props : Type :=
  mkProps { items : list Item;
            disableItem : option (Item -> bool);
            filterItems : option (list Item -> string -> list Item);
            showSelectAll : bool;
            showBreadcrumb : bool }.

(** What a handler does besides updating the state. *)
Inductive Effect : Type :=
| OnSelect (item : Item) (path : list NavigationItem)
| FocusSearch
| FocusSearchDeferred.

(** The initial values of the [useState] cells. *)
Definition initialState : State :=
  {| isOpen := false;
     navigationPath := [];
     searchQuery := "";
     isSearching := false;
     selectedItem := None |}.

(** ** State updates

    A handler is a sequence of [setX] calls and callbacks.  It reads the
    values of the render it was created in and queues updates that are
    applied in order; [setNavigationPath] takes an updater of the latest
    value. *)

Definition Update : Type := State -> State * list Effect.

Definition skip : Update := fun s => (s, []).

Definition emit (e : Effect) : Update := fun s => (s, [e]).

Definition andThen (u v : Update) : Update :=
  fun s =>
    let (s1, e1) := u s in
    let (s2, e2) := v s1 in
    (s2, e1 ++ e2).

Notation "u ;; v" := (andThen u v) (at level 61, right associativity).

Definition setIsOpen (b : bool) : Update :=
  fun s => (mkState b (navigationPath s) (searchQuery s) (isSearching s)
              (selectedItem s), []).

Definition setNavigationPath
  (f : list NavigationItem -> list NavigationItem) : Update :=
  fun s => (mkState (isOpen s) (f (navigationPath s)) (searchQuery s)
              (isSearching s) (selectedItem s), []).

Definition setSearchQuery (q : string) : Update :=
  fun s => (mkState (isOpen s) (navigationPath s) q (isSearching s)
              (selectedItem s), []).

Definition setIsSearching (b : bool) : Update :=
  fun s => (mkState (isOpen s) (navigationPath s) (searchQuery s) b
              (selectedItem s), []).

Definition setSelectedItem (it : option Item) : Update :=
  fun s => (mkState (isOpen s) (navigationPath s) (searchQuery s)
              (isSearching s) it, []).

(** ** Derived values *)

(** [navigationPath.length ? navigationPath[navigationPath.length - 1].id
    : null] *)
Definition currentParentId (path : list NavigationItem) : option JsId :=
  match path with
  | [] => None
  | _ :: _ => option_map navId (nth_error path (List.length path - 1)%nat)
  end.

(** [getCurrentItems]: the guard is [!currentParentId]. *)
Definition getCurrentItems (p : Props) (r : State) : list Item :=
  if negb (truthyOpt (currentParentId (navigationPath r))) then items p
  else
    match currentParentId (navigationPath r) with
    | Some id => findChildren id (items p)
    | None => items p
    end.

(** Truthiness of a string. *)
Definition nonEmptyString (q : string) : bool := negb (String.eqb q "").

(** [currentItems]: the guard is [searchQuery && filterItems]. *)
Definition currentItems (p : Props) (r : State) : list Item :=
  let currentMenu := getCurrentItems p r in
  if nonEmptyString (searchQuery r) then
    match filterItems p with
    | Some filter => filter currentMenu (searchQuery r)
    | None => currentMenu
    end
  else currentMenu.

(** [disableItem?.(item)] *)
Definition isDisabled (p : Props) (item : Item) : bool :=
  match disableItem p with
  | Some d => d item
  | None => false
  end.

(** [prev.slice(0, -1)] *)
Definition dropLast {A : Type} (prev : list A) : list A :=
  firstn (List.length prev - 1)%nat prev.

(** ** Handlers

    [r] is the render state the handler closes over. *)

(** The statements of the select branch, shared by [handleItemClick] and
    [handleSelectAll]. *)
Definition selectSequence (r : State) (item : Item) : Update :=
  emit (OnSelect item (navigationPath r)) ;;
  setSelectedItem (Some item) ;;
  setIsOpen false ;;
  setSearchQuery "" ;;
  setIsSearching false.

Definition handleItemClick (p : Props) (r : State) (item : Item) : Update :=
  if isDisabled p item then skip
  else if hasChildren item then
    setNavigationPath
      (fun prev =>
         prev ++ [ {| navId := itemId item;
                      navLabel := itemLabel item;
                      navParentId := currentParentId (navigationPath r) |} ]) ;;
    (if isSearching r then emit FocusSearch else skip)
  else selectSequence r item.

Definition handleBack : Update :=
  setNavigationPath dropLast ;;
  setSearchQuery "".

Definition handleClose : Update :=
  setIsOpen false ;;
  setNavigationPath (fun _ => []) ;;
  setSearchQuery "" ;;
  setIsSearching false.

Definition toggleSearch (r : State) : Update :=
  setIsSearching (negb (isSearching r)) ;;
  (if negb (isSearching r) then emit FocusSearchDeferred
   else setSearchQuery "").

Definition handleSelectAll (p : Props) (r : State) : Update :=
  if truthyOpt (currentParentId (navigationPath r)) then
    match currentParentId (navigationPath r) with
    | Some id =>
        match findItemBy strictEq id (items p) with
        | Some currentItem => selectSequence r currentItem
        | None => skip
        end
    | None => skip
    end
  else skip.

(** The trigger button: [setIsOpen(!isOpen)]. *)
Definition triggerClick (r : State) : Update := setIsOpen (negb (isOpen r)).

(** The search input: [setSearchQuery(e.target.value)]. *)
Definition searchInput (q : string) : Update := setSearchQuery q.

(** ** String to number, on decimal digits

    The conversion [==] applies to a string compared with a number is a
    parameter of the development below.  This instance covers the strings
    of decimal digits (the empty string converts to [0]) and is used for
    the concrete runs; it answers [None] elsewhere. *)

Fixpoint digitsValue (acc : Z) (s : string) : option Z :=
  match s with
  | EmptyString => Some acc
  | String c rest =>
      let n := Z.of_nat (nat_of_ascii c) in
      if (48 <=? n) && (n <=? 57) then digitsValue (10 * acc + (n - 48)) rest
      else None
  end.

Definition decimalToNumber (s : string) : option Z := digitsValue 0 s.

(** ** The sample tree of the scenarios

    [[{id:1,name:"A",children:[{id:11,name:"A1"}]}, {id:2,name:"B"}]] *)

Definition nodeA1 : Item := mkItem (IdNum 11) "A1" None.
Definition nodeA : Item := mkItem (IdNum 1) "A" (Some [nodeA1]).
Definition nodeB : Item := mkItem (IdNum 2) "B" None.
Definition sampleTree : list Item := [nodeA; nodeB].

Definition sampleProps : Props :=
  {| items := sampleTree;
     disableItem := None;
     filterItems := None;
     showSelectAll := true;
     showBreadcrumb := true |}.

(** A tree in which two nodes carry the identifier [7]. *)
Definition nodeFirst7 : Item := mkItem (IdNum 7) "first" None.
Definition nodeSecond7 : Item := mkItem (IdNum 7) "second" None.
Definition duplicateTree : list Item := [nodeB; nodeFirst7; nodeSecond7].

(** A tree whose group has the identifier [0]. *)
Definition nodeZ1 : Item := mkItem (IdNum 5) "Z1" None.
Definition nodeZ : Item := mkItem (IdNum 0) "Z" (Some [nodeZ1]).
Definition zeroTree : list Item := [nodeZ; nodeB].

Definition zeroProps : Props :=
  {| items := zeroTree;
     disableItem := None;
     filterItems := None;
     showSelectAll := true;
     showBreadcrumb := true |}.

(** ** The visible items as the specification derives them

    The active parent is the identifier of the last entry of the path, or
    none at the root; with no active parent the visible items are the
    top-level items, otherwise [findChildren(tree, parentId)]; the filter
    applies when the query is non-empty and a filter was supplied. *)

Definition activeParent (path : list NavigationItem) : option JsId :=
  last (map (fun e => Some (navId e)) path) None.

Definition currentItemsReference (p : Props) (r : State) : list Item :=
  let visible :=
    match activeParent (navigationPath r) with
    | None => items p
    | Some parentId => findChildren parentId (items p)
    end in
  if nonEmptyString (searchQuery r) then
    match filterItems p with
    | Some filter => filter visible (searchQuery r)
    | None => visible
    end
  else visible.

(** States of the sample runs. *)
Definition entryA : NavigationItem := mkNav (IdNum 1) "A" None.
Definition entryZ : NavigationItem := mkNav (IdNum 0) "Z" None.

(** Open, descended into [A]. *)
Definition atLevelA : State := mkState true [entryA] "" false None.

(** Open at the root, searching for ["A"]. *)
Definition searchingAtRoot : State := mkState true [] "A" true None.

(** Open on the tree with the group [0], descended into it. *)
Definition atLevelZ : State := mkState true [entryZ] "" false None.

(** Props with every item disabled. *)
Definition allDisabledProps : Props :=
  {| items := sampleTree;
     disableItem := Some (fun _ => true);
     filterItems := None;
     showSelectAll := true;
     showBreadcrumb := true |}.

(** ** Assumptions on the caller's props and trees *)

(** [filterItems] only narrows: what it returns was in the list it was
    given. *)
Definition filterNarrows (p : Props) : Prop :=
  forall filter, filterItems p = Some filter ->
    forall l q x, In x (filter l q) -> In x l.

(** Two identifiers of the same JavaScript type. *)
Definition sameType (a b : JsId) : bool :=
  match a, b with
  | IdNum _, IdNum _ => true
  | IdStr _, IdStr _ => true
  | _, _ => false
  end.

(** A navigation entry is the snapshot of a tree node that has children. *)
Definition entryOfTree (tree : list Item) (e : NavigationItem) : Prop :=
  exists n, In n (preorder tree) /\ itemId n = navId e /\
            itemLabel n = navLabel e /\ hasChildren n = true.

(** Props whose [filterItems] keeps the items labelled with the query. *)
Definition labelFilterProps : Props :=
  {| items := sampleTree;
     disableItem := None;
     filterItems :=
       Some (fun l q => filter (fun it => String.eqb (itemLabel it) q) l);
     showSelectAll := true;
     showBreadcrumb := true |}.

Section Widget.
(** The conversion of a string to a number that [==] performs; [None]
    when the string does not convert to a number identifier. *)
Variable StringToNumber : string -> option Z.

(** [a == b] on identifiers. *)
Definition looseEq (a b : JsId) : bool :=
  match a, b with
  | IdNum n, IdNum m => Z.eqb n m
  | IdStr s, IdStr t => String.eqb s t
  | IdNum n, IdStr s =>
      match StringToNumber s with
      | Some m => Z.eqb n m
      | None => false
      end
  | IdStr s, IdNum n =>
      match StringToNumber s with
      | Some m => Z.eqb m n
      | None => false
      end
  end.

(** The effect on [selectedItemId]; [None] is [null] (the default of
    the prop). *)
Definition resyncSelected (p : Props) (selectedItemId : option JsId)
  : Update :=
  match selectedItemId with
  | None => setSelectedItem None
  | Some id => setSelectedItem (findItemBy looseEq id (items p))
  end.

(** ** Events *)

Inductive Event : Type :=
| EvTrigger
| EvItemClick (item : Item)
| EvBack
| EvClickOutside
| EvToggleSearch
| EvSearchInput (q : string)
| EvSelectAll
| EvSelectedItemId (selectedItemId : option JsId).

(** The handler of an event, run on the state it was rendered from. *)
Definition dispatch (p : Props) (ev : Event) (s : State)
  : State * list Effect :=
  match ev with
  | EvTrigger => triggerClick s s
  | EvItemClick item => handleItemClick p s item s
  | EvBack => handleBack s
  | EvClickOutside => handleClose s
  | EvToggleSearch => toggleSearch s s
  | EvSearchInput q => searchInput q s
  | EvSelectAll => handleSelectAll p s s
  | EvSelectedItemId sid => resyncSelected p sid s
  end.

(** The control of an event is on screen: what the JSX renders in
    state [s].  The [disabled] attribute of an item button is left out:
    a click on a disabled item reaches the guard of [handleItemClick]. *)
Definition rendered (p : Props) (s : State) (ev : Event) : Prop :=
  match ev with
  | EvTrigger => True
  | EvItemClick item => isOpen s = true /\ In item (currentItems p s)
  | EvBack => isOpen s = true /\ navigationPath s <> []
  | EvClickOutside => True
  | EvToggleSearch => isOpen s = true
  | EvSearchInput _ => isOpen s = true /\ isSearching s = true
  | EvSelectAll =>
      isOpen s = true /\ showBreadcrumb p = true /\
      navigationPath s <> [] /\ showSelectAll p = true
  | EvSelectedItemId _ => True
  end.

(** A run of events from a state, each on a rendered control. *)
Fixpoint run (p : Props) (evs : list Event) (s : State) : State :=
  match evs with
  | [] => s
  | ev :: rest => run p rest (fst (dispatch p ev s))
  end.

Inductive reachable (p : Props) : State -> Prop :=
| reach_init : reachable p initialState
| reach_step s ev :
    reachable p s -> rendered p s ev ->
    reachable p (fst (dispatch p ev s)).

(** The navigation path is parent-consistent: [prev] is the identifier
    of the entry before (none at the front). *)
Fixpoint parentConsistentFrom (prev : option JsId)
  (path : list NavigationItem) : Prop :=
  match path with
  | [] => True
  | e :: rest =>
      navParentId e = prev /\ parentConsistentFrom (Some (navId e)) rest
  end.

Definition parentChained (path : list NavigationItem) : Prop :=
  parentConsistentFrom None path.

(** The same, entry by entry: the first entry has no parent, and each
    later entry names the identifier of the entry before it. *)
Definition parentConsistent (path : list NavigationItem) : Prop :=
  (forall e, nth_error path 0 = Some e -> navParentId e = None) /\
  (forall k a b,
      nth_error path k = Some a -> nth_error path (S k) = Some b ->
      navParentId b = Some (navId a)).

(** Every event of a run is on a control that is rendered when it
    fires. *)
Fixpoint runRendered (p : Props) (evs : list Event) (s : State) : Prop :=
  match evs with
  | [] => True
  | ev :: rest =>
      rendered p s ev /\ runRendered p rest (fst (dispatch p ev s))
  end.

(** The loops unfolded once, in the shape of the source. *)

Lemma findItemVisit_eq eqb id item :
  findItemVisit eqb id item =
  if eqb (itemId item) id then Some item
  else if nonEmpty (childrenOf item) then findItemBy eqb id (childrenOf item)
       else None.
Proof.
  destruct item as [i l [[|c cs]|]]; cbn [findItemVisit itemId itemChildren];
    destruct (eqb i id); reflexivity.
Qed.

Lemma findItemBy_cons eqb id item rest :
  findItemBy eqb id (item :: rest) =
  if eqb (itemId item) id then Some item
  else if nonEmpty (childrenOf item) then
         match findItemBy eqb id (childrenOf item) with
         | Some found => Some found
         | None => findItemBy eqb id rest
         end
       else findItemBy eqb id rest.
Proof.
  cbn [findItemBy]. rewrite findItemVisit_eq.
  destruct (eqb (itemId item) id); [reflexivity|].
  destruct (nonEmpty (childrenOf item)); reflexivity.
Qed.

Lemma findChildrenVisit_eq id item :
  findChildrenVisit id item =
  if strictEq (itemId item) id then Some (childrenOf item)
  else if nonEmpty (childrenOf item) then
         if nonEmpty (findChildren id (childrenOf item))
         then Some (findChildren id (childrenOf item))
         else None
       else None.
Proof.
  destruct item as [i l [[|c cs]|]];
    cbn [findChildrenVisit itemId itemChildren];
    destruct (strictEq i id); reflexivity.
Qed.

Lemma findChildren_cons id item rest :
  findChildren id (item :: rest) =
  if strictEq (itemId item) id then childrenOf item
  else if nonEmpty (childrenOf item) then
         if nonEmpty (findChildren id (childrenOf item))
         then findChildren id (childrenOf item)
         else findChildren id rest
       else findChildren id rest.
Proof.
  cbn [findChildren]. rewrite findChildrenVisit_eq.
  destruct (strictEq (itemId item) id); [reflexivity|].
  destruct (nonEmpty (childrenOf item)); [|reflexivity].
  destruct (nonEmpty (findChildren id (childrenOf item))); reflexivity.
Qed.

Lemma preorder_cons item rest :
  preorder (item :: rest) = item :: preorder (childrenOf item) ++ preorder rest.
Proof.
  destruct item as [i l [cs|]]; reflexivity.
Qed.

(** ** Lists *)

Lemma dropLast_snoc {A : Type} (l : list A) (x : A) : dropLast (l ++ [x]) = l.
Proof.
  unfold dropLast.
  replace (List.length (l ++ [x]) - 1)%nat with (List.length l + 0)%nat
    by (rewrite length_app; simpl; lia).
  rewrite firstn_app_2. simpl. apply app_nil_r.
Qed.

Lemma currentParentId_snoc path e :
  currentParentId (path ++ [e]) = Some (navId e).
Proof.
  unfold currentParentId.
  destruct (path ++ [e]) eqn:E.
  - destruct path; discriminate.
  - rewrite <- E.
    replace (List.length (path ++ [e]) - 1)%nat with (List.length path)
      by (rewrite length_app; simpl; lia).
    rewrite nth_error_app2 by lia. rewrite Nat.sub_diag. reflexivity.
Qed.

Lemma currentParentId_cons e path :
  currentParentId (e :: path) =
  match currentParentId path with
  | Some i => Some i
  | None => Some (navId e)
  end.
Proof.
  revert e. induction path as [|x path IH] using rev_ind; intros e.
  - reflexivity.
  - rewrite currentParentId_snoc.
    change (e :: path ++ [x]) with ((e :: path) ++ [x]).
    apply currentParentId_snoc.
Qed.

(** ** What each handler computes *)

Lemma handleItemClick_disabled p r item :
  isDisabled p item = true -> handleItemClick p r item = skip.
Proof. unfold handleItemClick. intros ->. reflexivity. Qed.

Lemma handleItemClick_descend p s item :
  isDisabled p item = false -> hasChildren item = true ->
  handleItemClick p s item s =
  (mkState (isOpen s)
     (navigationPath s ++
        [mkNav (itemId item) (itemLabel item)
           (currentParentId (navigationPath s))])
     (searchQuery s) (isSearching s) (selectedItem s),
   if isSearching s then [FocusSearch] else []).
Proof.
  unfold handleItemClick. intros -> ->.
  destruct s as [o path q [|] sel]; reflexivity.
Qed.

Lemma selectSequence_run s item :
  selectSequence s item s =
  (mkState false (navigationPath s) "" false (Some item),
   [OnSelect item (navigationPath s)]).
Proof. reflexivity. Qed.

Lemma handleItemClick_leaf p s item :
  isDisabled p item = false -> hasChildren item = false ->
  handleItemClick p s item s =
  (mkState false (navigationPath s) "" false (Some item),
   [OnSelect item (navigationPath s)]).
Proof.
  unfold handleItemClick. intros -> ->. apply selectSequence_run.
Qed.

Lemma handleBack_run s :
  handleBack s =
  (mkState (isOpen s) (dropLast (navigationPath s)) "" (isSearching s)
     (selectedItem s), []).
Proof. reflexivity. Qed.

Lemma handleClose_run s :
  handleClose s = (mkState false [] "" false (selectedItem s), []).
Proof. reflexivity. Qed.

Lemma triggerClick_run s :
  triggerClick s s =
  (mkState (negb (isOpen s)) (navigationPath s) (searchQuery s)
     (isSearching s) (selectedItem s), []).
Proof. reflexivity. Qed.

Lemma handleSelectAll_falsy p s :
  truthyOpt (currentParentId (navigationPath s)) = false ->
  handleSelectAll p s s = (s, []).
Proof. unfold handleSelectAll. intros ->. reflexivity. Qed.

(** ** Lookup as a search of the pre-order listing *)

Lemma find_append {A : Type} (f : A -> bool) (l1 l2 : list A) :
  find f (l1 ++ l2) =
  match find f l1 with
  | Some x => Some x
  | None => find f l2
  end.
Proof.
  induction l1 as [|a l1 IH]; simpl; [reflexivity|].
  destruct (f a); [reflexivity | exact IH].
Qed.

Lemma preorderNode_eq item :
  preorderNode item = item :: preorder (childrenOf item).
Proof. destruct item as [i l [cs|]]; reflexivity. Qed.

Section FindItem.
Variable eqb : JsId -> JsId -> bool.
Variable id : JsId.

Let matches (n : Item) : bool := eqb (itemId n) id.

Let visitSearches (item : Item) : Prop :=
  findItemVisit eqb id item = find matches (preorderNode item).

Lemma findItemBy_of_visits items :
  Forall visitSearches items ->
  findItemBy eqb id items = find matches (preorder items).
Proof.
  induction 1 as [|item rest Hitem _ IH]; [reflexivity|].
  cbn [findItemBy preorder]. rewrite find_append, <- Hitem, IH. reflexivity.
Qed.

Lemma findItemVisit_find item : visitSearches item.
Proof.
  induction item as [item IH] using Item_tree_ind.
  unfold visitSearches.
  rewrite findItemVisit_eq, preorderNode_eq. cbn [find]. unfold matches at 1.
  destruct (eqb (itemId item) id); [reflexivity|].
  rewrite <- (findItemBy_of_visits _ IH).
  destruct (childrenOf item); reflexivity.
Qed.

Lemma findItemBy_find items :
  findItemBy eqb id items = find matches (preorder items).
Proof.
  apply findItemBy_of_visits, Forall_forall. intros item _.
  apply findItemVisit_find.
Qed.
End FindItem.

Lemma find_unique {A : Type} (f : A -> bool) (l : list A) (n : A) :
  In n l -> f n = true -> (forall m, In m l -> f m = true -> m = n) ->
  find f l = Some n.
Proof.
  intros Hin Hf Huniq. destruct (find f l) as [m|] eqn:E.
  - apply find_some in E. destruct E as [Hm Hfm].
    rewrite (Huniq m Hm Hfm). reflexivity.
  - rewrite (find_none f l E n Hin) in Hf. discriminate.
Qed.

(** ** Parent consistency of paths *)

Lemma parentConsistentFrom_snoc prev path e :
  parentConsistentFrom prev (path ++ [e]) <->
  parentConsistentFrom prev path /\
  navParentId e = match currentParentId path with
                  | Some i => Some i
                  | None => prev
                  end.
Proof.
  revert prev. induction path as [|x path IH]; intros prev.
  - simpl. tauto.
  - cbn [app parentConsistentFrom]. rewrite IH, currentParentId_cons.
    destruct (currentParentId path); tauto.
Qed.

Lemma parentConsistentFrom_firstn n prev path :
  parentConsistentFrom prev path -> parentConsistentFrom prev (firstn n path).
Proof.
  revert prev path. induction n as [|n IH]; intros prev [|x path]; simpl;
    try tauto.
  intros [H1 H2]. split; [exact H1 | apply IH, H2].
Qed.

Lemma selectSequence_path r item s :
  navigationPath (fst (selectSequence r item s)) = navigationPath s.
Proof. reflexivity. Qed.

Lemma dispatch_preserves_parentChained p ev s :
  parentChained (navigationPath s) ->
  parentChained (navigationPath (fst (dispatch p ev s))).
Proof.
  intros H. destruct ev; cbn [dispatch]; try exact H.
  - destruct (isDisabled p item) eqn:Hd.
    + rewrite handleItemClick_disabled by exact Hd. exact H.
    + destruct (hasChildren item) eqn:Hc.
      * rewrite handleItemClick_descend by assumption. cbn [fst navigationPath].
        apply parentConsistentFrom_snoc. split; [exact H|].
        cbn [navParentId]. destruct (currentParentId (navigationPath s));
          reflexivity.
      * rewrite handleItemClick_leaf by assumption. exact H.
  - rewrite handleBack_run. cbn [fst navigationPath].
    apply parentConsistentFrom_firstn, H.
  - exact I.
  - unfold toggleSearch. destruct (isSearching s); exact H.
  - unfold handleSelectAll.
    destruct (truthyOpt (currentParentId (navigationPath s))); [|exact H].
    destruct (currentParentId (navigationPath s)) as [i|]; [|exact H].
    destruct (findItemBy strictEq i (items p)); exact H.
  - destruct selectedItemId; exact H.
Qed.

Lemma parentConsistentFrom_entries prev path :
  parentConsistentFrom prev path <->
  (forall e, nth_error path 0 = Some e -> navParentId e = prev) /\
  (forall k a b,
      nth_error path k = Some a -> nth_error path (S k) = Some b ->
      navParentId b = Some (navId a)).
Proof.
  revert prev. induction path as [|x path IH]; intros prev.
  - simpl. split; [intros _|tauto]. split.
    + intros e H. discriminate.
    + intros [|k] a b H; discriminate.
  - cbn [parentConsistentFrom]. rewrite IH. split.
    + intros [Hx [Hhead Hadj]]. split.
      * intros e [= <-]. exact Hx.
      * intros [|k] a b Ha Hb.
        -- injection Ha as <-. apply Hhead. exact Hb.
        -- apply (Hadj k); assumption.
    + intros [Hhead Hadj]. split; [apply Hhead; reflexivity|]. split.
      * intros e He. apply (Hadj 0%nat x e); [reflexivity | exact He].
      * intros k a b Ha Hb. apply (Hadj (S k)); assumption.
Qed.

Lemma parentChained_consistent path :
  parentChained path <-> parentConsistent path.
Proof. apply parentConsistentFrom_entries. Qed.

Lemma reachable_parentChained p s :
  reachable p s -> parentChained (navigationPath s).
Proof.
  induction 1 as [|s ev _ IH _].
  - exact I.
  - apply dispatch_preserves_parentChained, IH.
Qed.

Lemma reachable_run p evs s :
  reachable p s -> runRendered p evs s -> reachable p (run p evs s).
Proof.
  revert s. induction evs as [|ev rest IH]; intros s Hs Hr.
  - exact Hs.
  - destruct Hr as [Hev Hrest]. cbn [run]. apply IH; [|exact Hrest].
    apply reach_step; assumption.
Qed.

Lemma activeParent_currentParentId path :
  activeParent path = currentParentId path.
Proof.
  unfold activeParent.
  induction path as [|e path IH] using rev_ind; [reflexivity|].
  rewrite map_app, currentParentId_snoc. cbn [map]. apply last_last.
Qed.

Lemma resyncSelected_run p sid s :
  resyncSelected p sid s =
  (mkState (isOpen s) (navigationPath s) (searchQuery s) (isSearching s)
     match sid with
     | None => None
     | Some id => find (fun n => looseEq (itemId n) id) (preorder (items p))
     end, []).
Proof.
  destruct sid as [id|]; [|reflexivity].
  unfold resyncSelected, setSelectedItem. rewrite findItemBy_find. reflexivity.
Qed.

Lemma currentItems_reference_truthy p s :
  (navigationPath s = [] \/
   truthyOpt (currentParentId (navigationPath s)) = true) ->
  currentItems p s = currentItemsReference p s.
Proof.
  intros H. unfold currentItems, currentItemsReference, getCurrentItems.
  rewrite activeParent_currentParentId.
  destruct H as [-> | ->]; [reflexivity|].
  destruct (currentParentId (navigationPath s)); reflexivity.
Qed.

(** ** The claims *)

(** C2 (amended): when the identifier of the last entry of the navigation
    path is truthy and [findItem] resolves it to a node, [handleSelectAll]
    invokes [onSelect] once with that node and the current navigation path,
    the entry of the node itself included, records the node as the
    selection, closes the dropdown and clears the search state. *)
Theorem C2_handleSelectAll_passes_current_path p s id node :
  currentParentId (navigationPath s) = Some id ->
  truthy id = true ->
  findItemBy strictEq id (items p) = Some node ->
  snd (handleSelectAll p s s) = [OnSelect node (navigationPath s)] /\
  selectedItem (fst (handleSelectAll p s s)) = Some node /\
  isOpen (fst (handleSelectAll p s s)) = false /\
  searchQuery (fst (handleSelectAll p s s)) = "" /\
  isSearching (fst (handleSelectAll p s s)) = false.
Proof.
  intros Hid Ht Hfind. unfold handleSelectAll.
  rewrite Hid. cbn [truthyOpt]. rewrite Ht, Hfind, selectSequence_run.
  repeat split.
Qed.

(** C5: on a node with at least one child that is not disabled,
    [handleItemClick] (the descent) followed by [handleBack] gives back the
    navigation path it started from. *)
Theorem C5_descend_then_back_restores_path p s item :
  isDisabled p item = false ->
  hasChildren item = true ->
  navigationPath (fst (handleBack (fst (handleItemClick p s item s)))) =
  navigationPath s.
Proof.
  intros Hd Hc. rewrite handleItemClick_descend by assumption.
  rewrite handleBack_run. cbn [fst navigationPath]. apply dropLast_snoc.
Qed.

(** C7: [findItem] is the search of the depth-first pre-order listing of
    the tree that returns on the first match: its result is the first node
    of the listing whose identifier compares equal to the searched id, for
    every tree, duplicates included.  Hence in a tree with exactly one node
    whose identifier compares equal to the id, [findItem] returns that
    node.  "Equal" is the comparison of the lookup itself: [==] in the
    selected-item effect, [===] in [handleSelectAll]; uniqueness is meant
    with respect to that comparison. *)
Theorem C7_findItem_unique_first_preorder eqb id items :
  findItemBy eqb id items =
  find (fun m => eqb (itemId m) id) (preorder items) /\
  (forall pre n post,
      preorder items = pre ++ n :: post ->
      eqb (itemId n) id = true ->
      (forall m, In m pre -> eqb (itemId m) id = false) ->
      findItemBy eqb id items = Some n) /\
  (forall n,
      In n (preorder items) ->
      eqb (itemId n) id = true ->
      (forall m, In m (preorder items) -> eqb (itemId m) id = true -> m = n) ->
      findItemBy eqb id items = Some n).
Proof.
  rewrite findItemBy_find. split; [reflexivity|]. split.
  - intros pre n post -> Hn Hpre. rewrite find_append.
    assert (Hnone : find (fun m => eqb (itemId m) id) pre = None).
    { clear - Hpre. induction pre as [|x pre IH]; [reflexivity|].
      cbn [find]. rewrite (Hpre x (or_introl eq_refl)).
      apply IH. intros m Hm. apply Hpre. right. exact Hm. }
    rewrite Hnone. cbn [find]. rewrite Hn. reflexivity.
  - intros n Hin Hn Huniq. apply find_unique; assumption.
Qed.

(** C8: a click on an item for which the supplied [disableItem] answers
    true changes no state cell and calls nothing. *)
Theorem C8_disabled_click_is_noop p s item d :
  disableItem p = Some d ->
  d item = true ->
  handleItemClick p s item s = (s, []).
Proof.
  intros Hp Hd. rewrite handleItemClick_disabled; [reflexivity|].
  unfold isDisabled. rewrite Hp. exact Hd.
Qed.

(** C9: whatever the selection was, the effect replaces it by the result
    of the search of the whole tree for the selected id, that is the first
    node of the pre-order listing that compares equal to it, and by none
    for an absent id; it touches no other state cell and calls nothing.
    So when the id is absent, or no node of the tree compares equal to it,
    the resolved selection becomes none.  "Has that id" is the comparison
    of the effect, [==]. *)
Theorem C9_resync_absent_or_unknown_id p sid s :
  resyncSelected p sid s =
  (mkState (isOpen s) (navigationPath s) (searchQuery s) (isSearching s)
     match sid with
     | None => None
     | Some id => find (fun n => looseEq (itemId n) id) (preorder (items p))
     end, []) /\
  ((sid = None \/
    exists id, sid = Some id /\
      forall n, In n (preorder (items p)) -> looseEq (itemId n) id = false) ->
   resyncSelected p sid s =
   (mkState (isOpen s) (navigationPath s) (searchQuery s) (isSearching s)
      None, [])).
Proof.
  split; [apply resyncSelected_run|].
  intros H. rewrite resyncSelected_run. destruct H as [-> | (id & -> & Hnone)].
  - reflexivity.
  - destruct (find _ _) as [m|] eqn:E; [|reflexivity].
    apply find_some in E. destruct E as [Hin Hm].
    rewrite (Hnone m Hin) in Hm. discriminate.
Qed.

(** C10: in every reachable state the navigation path is
    parent-consistent (the first entry has parent [null], each later entry
    has the identifier of the entry before it as parent), and it stays so
    after any event. *)
Theorem C10_reachable_path_parent_consistent p s :
  reachable p s ->
  parentConsistent (navigationPath s) /\
  forall ev, parentConsistent (navigationPath (fst (dispatch p ev s))).
Proof.
  intros Hr. apply reachable_parentChained in Hr. split.
  - apply parentChained_consistent, Hr.
  - intros ev.
    apply parentChained_consistent, dispatch_preserves_parentChained, Hr.
Qed.

End Widget.

(** ** Concrete runs *)

Ltac reach_by_run evs :=
  match goal with
  | |- reachable ?f ?p ?s =>
      change s with (run f p evs initialState);
      apply reachable_run; [apply reach_init | cbn; intuition discriminate]
  end.

Lemma reachable_atLevelA : reachable decimalToNumber sampleProps atLevelA.
Proof. reach_by_run [EvTrigger; EvItemClick nodeA]. Qed.

Lemma reachable_searchingAtRoot :
  reachable decimalToNumber sampleProps searchingAtRoot.
Proof. reach_by_run [EvTrigger; EvToggleSearch; EvSearchInput "A"]. Qed.

Lemma reachable_atLevelZ : reachable decimalToNumber zeroProps atLevelZ.
Proof. reach_by_run [EvTrigger; EvItemClick nodeZ]. Qed.

(** C1: on the sample tree, opened and descended into [A], the click on the
    leaf [A1] calls [onSelect] once with [A1] and the path [[A]], closes the
    dropdown and clears the query, and leaves the navigation path [[A]] in
    place. *)
Theorem C1_leaf_click_keeps_navigation_path :
  reachable decimalToNumber sampleProps atLevelA /\
  rendered sampleProps atLevelA (EvItemClick nodeA1) /\
  hasChildren nodeA1 = false /\
  dispatch decimalToNumber sampleProps (EvItemClick nodeA1) atLevelA =
  (mkState false [entryA] "" false (Some nodeA1),
   [OnSelect nodeA1 [entryA]]) /\
  navigationPath
    (fst (dispatch decimalToNumber sampleProps (EvItemClick nodeA1) atLevelA))
  <> [].
Proof.
  split; [exact reachable_atLevelA|].
  cbn. intuition discriminate.
Qed.

(** C2 (as stated, refuted): with the path [[A]], [handleSelectAll] passes
    the path [[A]] to [onSelect], not the path before [A] was entered. *)
Lemma C2_counterexample_path_includes_node :
  reachable decimalToNumber sampleProps atLevelA /\
  rendered sampleProps atLevelA EvSelectAll /\
  currentParentId (navigationPath atLevelA) = Some (IdNum 1) /\
  findItemBy strictEq (IdNum 1) (items sampleProps) = Some nodeA /\
  dropLast (navigationPath atLevelA) = [] /\
  snd (handleSelectAll sampleProps atLevelA atLevelA) =
  [OnSelect nodeA [entryA]] /\
  snd (handleSelectAll sampleProps atLevelA atLevelA) <>
  [OnSelect nodeA (dropLast (navigationPath atLevelA))].
Proof.
  split; [exact reachable_atLevelA|].
  cbn. intuition discriminate.
Qed.

Lemma C2_witness :
  currentParentId (navigationPath atLevelA) = Some (IdNum 1) /\
  truthy (IdNum 1) = true /\
  findItemBy strictEq (IdNum 1) (items sampleProps) = Some nodeA /\
  snd (handleSelectAll sampleProps atLevelA atLevelA) =
  [OnSelect nodeA [entryA]] /\
  isOpen (fst (handleSelectAll sampleProps atLevelA atLevelA)) = false.
Proof.
  split; [reflexivity|]. split; [reflexivity|]. split; [reflexivity|].
  pose proof (C2_handleSelectAll_passes_current_path sampleProps atLevelA
                (IdNum 1) nodeA eq_refl eq_refl eq_refl) as H.
  split; [exact (proj1 H) | exact (proj1 (proj2 (proj2 H)))].
Defined.

(** C3: two reachable states in which the dropdown is closed and the
    state is not the default one: after the trigger button closes the
    dropdown the path [[A]] and the query ["A"] are still there, and after
    the selection of [A1] the path [[A]] is still there. *)
Theorem C3_closed_states_keep_path_and_query :
  let viaTrigger :=
    run decimalToNumber sampleProps
      [EvTrigger; EvToggleSearch; EvSearchInput "A"; EvItemClick nodeA;
       EvTrigger] initialState in
  let viaSelection :=
    run decimalToNumber sampleProps
      [EvTrigger; EvItemClick nodeA; EvItemClick nodeA1] initialState in
  (reachable decimalToNumber sampleProps viaTrigger /\
   isOpen viaTrigger = false /\
   navigationPath viaTrigger = [entryA] /\
   searchQuery viaTrigger = "A") /\
  (reachable decimalToNumber sampleProps viaSelection /\
   isOpen viaSelection = false /\
   navigationPath viaSelection = [entryA]).
Proof.
  split.
  - split; [|repeat split].
    apply reachable_run; [apply reach_init | cbn; intuition discriminate].
  - split; [|repeat split].
    apply reachable_run; [apply reach_init | cbn; intuition discriminate].
Qed.

(** C4: with the group [0] entered, [currentItems] shows the top-level
    items, while the derivation of the specification shows the children
    of the group. *)
Theorem C4_currentItems_falsy_parent_id :
  reachable decimalToNumber zeroProps atLevelZ /\
  currentParentId (navigationPath atLevelZ) = Some (IdNum 0) /\
  currentItems zeroProps atLevelZ = zeroTree /\
  currentItemsReference zeroProps atLevelZ = [nodeZ1] /\
  currentItems zeroProps atLevelZ <> currentItemsReference zeroProps atLevelZ.
Proof.
  split; [exact reachable_atLevelZ|].
  cbn. intuition discriminate.
Qed.

Lemma C5_witness :
  isDisabled sampleProps nodeA = false /\
  hasChildren nodeA = true /\
  navigationPath
    (fst (handleBack (fst (handleItemClick sampleProps atLevelA nodeA
                             atLevelA)))) =
  navigationPath atLevelA.
Proof.
  split; [reflexivity|]. split; [reflexivity|].
  apply (C5_descend_then_back_restores_path sampleProps atLevelA nodeA);
    reflexivity.
Defined.

(** C6: at the root with the query ["A"], the click on the group [A]
    descends into it and the query is still ["A"]. *)
Theorem C6_descend_keeps_search_query :
  reachable decimalToNumber sampleProps searchingAtRoot /\
  rendered sampleProps searchingAtRoot (EvItemClick nodeA) /\
  hasChildren nodeA = true /\
  dispatch decimalToNumber sampleProps (EvItemClick nodeA) searchingAtRoot =
  (mkState true [entryA] "A" true None, [FocusSearch]) /\
  searchQuery
    (fst (dispatch decimalToNumber sampleProps (EvItemClick nodeA)
            searchingAtRoot)) <> "".
Proof.
  split; [exact reachable_searchingAtRoot|].
  cbn. intuition discriminate.
Qed.

Lemma C7_witness :
  (In nodeA1 (preorder sampleTree) /\
   looseEq decimalToNumber (itemId nodeA1) (IdStr "11") = true /\
   (forall m, In m (preorder sampleTree) ->
              looseEq decimalToNumber (itemId m) (IdStr "11") = true ->
              m = nodeA1) /\
   findItemBy (looseEq decimalToNumber) (IdStr "11") sampleTree =
   Some nodeA1) /\
  (preorder duplicateTree = [nodeB] ++ nodeFirst7 :: [nodeSecond7] /\
   strictEq (itemId nodeFirst7) (IdNum 7) = true /\
   strictEq (itemId nodeSecond7) (IdNum 7) = true /\
   findItemBy strictEq (IdNum 7) duplicateTree = Some nodeFirst7).
Proof.
  assert (Hin : In nodeA1 (preorder sampleTree)) by (cbn; tauto).
  assert (Huniq : forall m, In m (preorder sampleTree) ->
             looseEq decimalToNumber (itemId m) (IdStr "11") = true ->
             m = nodeA1).
  { cbn. intros m [<- | [<- | [<- | []]]] H; (discriminate || reflexivity). }
  assert (Hpre : forall m, In m [nodeB] ->
             strictEq (itemId m) (IdNum 7) = false).
  { intros m [<- | []]. reflexivity. }
  split.
  - split; [exact Hin|]. split; [reflexivity|]. split; [exact Huniq|].
    exact (proj2 (proj2 (C7_findItem_unique_first_preorder
                           (looseEq decimalToNumber) (IdStr "11") sampleTree))
             nodeA1 Hin eq_refl Huniq).
  - split; [reflexivity|]. split; [reflexivity|]. split; [reflexivity|].
    exact (proj1 (proj2 (C7_findItem_unique_first_preorder
                           strictEq (IdNum 7) duplicateTree))
             [nodeB] nodeFirst7 [nodeSecond7] eq_refl eq_refl Hpre).
Defined.

Lemma C8_witness :
  disableItem allDisabledProps = Some (fun _ => true) /\
  (fun _ : Item => true) nodeA1 = true /\
  handleItemClick allDisabledProps atLevelA nodeA1 atLevelA = (atLevelA, []).
Proof.
  split; [reflexivity|]. split; [reflexivity|].
  apply (C8_disabled_click_is_noop allDisabledProps atLevelA nodeA1
           (fun _ => true)); reflexivity.
Defined.

Lemma C9_witness :
  ((forall n, In n (preorder (items sampleProps)) ->
              looseEq decimalToNumber (itemId n) (IdNum 99) = false) /\
   resyncSelected decimalToNumber sampleProps (Some (IdNum 99))
     (mkState false [entryA] "" false (Some nodeA1)) =
   (mkState false [entryA] "" false None, [])) /\
  resyncSelected decimalToNumber sampleProps (Some (IdNum 2))
    (mkState false [entryA] "" false (Some nodeA1)) =
  (mkState false [entryA] "" false (Some nodeB), []) /\
  resyncSelected decimalToNumber sampleProps None
    (mkState false [entryA] "" false (Some nodeA1)) =
  (mkState false [entryA] "" false None, []).
Proof.
  assert (Hnone : forall n, In n (preorder (items sampleProps)) ->
             looseEq decimalToNumber (itemId n) (IdNum 99) = false).
  { cbn. intros n [<- | [<- | [<- | []]]]; reflexivity. }
  split; [split; [exact Hnone|] | split].
  - exact (proj2 (C9_resync_absent_or_unknown_id decimalToNumber sampleProps
                    (Some (IdNum 99))
                    (mkState false [entryA] "" false (Some nodeA1)))
             (or_intror (ex_intro _ (IdNum 99) (conj eq_refl Hnone)))).
  - exact (proj1 (C9_resync_absent_or_unknown_id decimalToNumber sampleProps
                    (Some (IdNum 2))
                    (mkState false [entryA] "" false (Some nodeA1)))).
  - exact (proj2 (C9_resync_absent_or_unknown_id decimalToNumber sampleProps
                    None (mkState false [entryA] "" false (Some nodeA1)))
             (or_introl eq_refl)).
Defined.

Lemma C10_witness :
  reachable decimalToNumber sampleProps atLevelA /\
  parentConsistent (navigationPath atLevelA).
Proof.
  split; [exact reachable_atLevelA|].
  exact (proj1 (C10_reachable_path_parent_consistent decimalToNumber
                  sampleProps atLevelA reachable_atLevelA)).
Defined.

(** ** Further properties of the lookups *)

Section LookupFacts.
Variable id : JsId.

Lemma In_preorder_top items x : In x items -> In x (preorder items).
Proof.
  induction items as [|it rest IH]; [intros []|].
  rewrite preorder_cons. intros [<- | H].
  - left. reflexivity.
  - right. apply in_or_app. right. apply IH, H.
Qed.

Let closedNode (it : Item) : Prop :=
  forall n c, In n (preorderNode it) -> In c (childrenOf n) ->
              In c (preorderNode it).

Lemma preorder_children_of_closed items :
  Forall closedNode items ->
  forall n c, In n (preorder items) -> In c (childrenOf n) ->
              In c (preorder items).
Proof.
  induction 1 as [|it rest Hit _ IH]; intros n c Hn Hc; [destruct Hn|].
  cbn [preorder] in *. apply in_app_or in Hn. apply in_or_app.
  destruct Hn as [Hn | Hn].
  - left. apply (Hit n c Hn Hc).
  - right. apply (IH n c Hn Hc).
Qed.

Lemma preorderNode_children item : closedNode item.
Proof.
  induction item as [item IH] using Item_tree_ind.
  intros n c Hn Hc. rewrite preorderNode_eq in *.
  destruct Hn as [<- | Hn].
  - right. apply In_preorder_top, Hc.
  - right. apply (preorder_children_of_closed _ IH n c Hn Hc).
Qed.

Lemma preorder_children items n c :
  In n (preorder items) -> In c (childrenOf n) -> In c (preorder items).
Proof.
  apply preorder_children_of_closed, Forall_forall. intros it _.
  apply preorderNode_children.
Qed.

Let visitFromMatch (it : Item) : Prop :=
  forall res, findChildrenVisit id it = Some res ->
    exists n, In n (preorderNode it) /\ strictEq (itemId n) id = true /\
              res = childrenOf n.

Lemma findChildren_from_visits items :
  Forall visitFromMatch items ->
  findChildren id items = [] \/
  exists n, In n (preorder items) /\ strictEq (itemId n) id = true /\
            findChildren id items = childrenOf n.
Proof.
  induction 1 as [|it rest Hit _ IH]; [left; reflexivity|].
  cbn [findChildren preorder].
  destruct (findChildrenVisit id it) as [res|] eqn:E.
  - right. destruct (Hit res E) as (n & Hn & Hid & ->).
    exists n. split; [apply in_or_app; left; exact Hn|]. split; [exact Hid|].
    reflexivity.
  - destruct IH as [IH | (n & Hn & Hid & IH)]; [left; exact IH|].
    right. exists n. split; [apply in_or_app; right; exact Hn|].
    split; assumption.
Qed.

Lemma findChildrenVisit_from_match item : visitFromMatch item.
Proof.
  induction item as [item IH] using Item_tree_ind.
  intros res. rewrite findChildrenVisit_eq, preorderNode_eq.
  destruct (strictEq (itemId item) id) eqn:Hid.
  - intros [= <-]. exists item. split; [left; reflexivity|]. split;
      [exact Hid | reflexivity].
  - destruct (nonEmpty (childrenOf item)); [|discriminate].
    destruct (findChildren_from_visits _ IH) as [-> | (n & Hn & Hn' & E)];
      [discriminate|].
    destruct (nonEmpty (findChildren id (childrenOf item))); [|discriminate].
    intros [= <-]. exists n. split; [right; exact Hn|]. split; assumption.
Qed.

Let agreeNode (it : Item) : Prop :=
  (forall n, findItemVisit strictEq id it = Some n -> hasChildren n = true ->
             findChildrenVisit id it = Some (childrenOf n)) /\
  (findItemVisit strictEq id it = None -> findChildrenVisit id it = None).

Lemma findChildren_agrees_of_nodes items :
  Forall agreeNode items ->
  (forall n, findItemBy strictEq id items = Some n -> hasChildren n = true ->
             findChildren id items = childrenOf n) /\
  (findItemBy strictEq id items = None -> findChildren id items = []).
Proof.
  induction 1 as [|it rest [Hsome Hnone] _ [IHsome IHnone]].
  - split; [discriminate | reflexivity].
  - cbn [findItemBy findChildren].
    destruct (findItemVisit strictEq id it) as [m|] eqn:E.
    + split; [|discriminate]. intros n [= <-] Hc.
      rewrite (Hsome m eq_refl Hc). reflexivity.
    + rewrite (Hnone eq_refl). split; assumption.
Qed.

Lemma findChildrenVisit_agrees item : agreeNode item.
Proof.
  induction item as [item IH] using Item_tree_ind.
  unfold agreeNode. rewrite findItemVisit_eq, findChildrenVisit_eq.
  destruct (strictEq (itemId item) id).
  - split; [|discriminate]. intros n [= <-] _. reflexivity.
  - destruct (nonEmpty (childrenOf item)); [|split; [discriminate|reflexivity]].
    destruct (findChildren_agrees_of_nodes _ IH) as [Hsome Hnone].
    split.
    + intros n Hn Hc. rewrite (Hsome n Hn Hc). unfold hasChildren in Hc.
      rewrite Hc. reflexivity.
    + intros Hn. rewrite (Hnone Hn). reflexivity.
Qed.
End LookupFacts.

Lemma find_agree_on {A : Type} (f g : A -> bool) (l : list A) :
  (forall x, In x l -> f x = g x) -> find f l = find g l.
Proof.
  induction l as [|a l IH]; intros H; [reflexivity|].
  cbn [find]. rewrite (H a (or_introl eq_refl)).
  destruct (g a); [reflexivity|]. apply IH. intros x Hx. apply H. right.
  exact Hx.
Qed.

Lemma Forall_firstn_keeps {A : Type} (P : A -> Prop) n (l : list A) :
  Forall P l -> Forall P (firstn n l).
Proof.
  revert l. induction n as [|n IH]; intros l H; [constructor|].
  destruct H as [|x l Hx Hl]; [constructor|].
  cbn [firstn]. constructor; [exact Hx | apply IH, Hl].
Qed.

Lemma strictEq_refl a : strictEq a a = true.
Proof. destruct a; simpl; [apply Z.eqb_refl | apply String.eqb_refl]. Qed.

Lemma findChildren_result id items :
  findChildren id items = [] \/
  exists n, In n (preorder items) /\ strictEq (itemId n) id = true /\
            findChildren id items = childrenOf n.
Proof.
  apply findChildren_from_visits, Forall_forall. intros it _.
  apply findChildrenVisit_from_match.
Qed.

Lemma getCurrentItems_in_tree p s x :
  In x (getCurrentItems p s) -> In x (preorder (items p)).
Proof.
  unfold getCurrentItems.
  destruct (negb (truthyOpt (currentParentId (navigationPath s))));
    [apply In_preorder_top|].
  destruct (currentParentId (navigationPath s)) as [id|];
    [|apply In_preorder_top].
  destruct (findChildren_result id (items p)) as [-> | (n & Hn & _ & ->)].
  - intros [].
  - apply preorder_children, Hn.
Qed.

Lemma findItemBy_cases eqb id items :
  match findItemBy eqb id items with
  | Some n => In n (preorder items) /\ eqb (itemId n) id = true
  | None => forall n, In n (preorder items) -> eqb (itemId n) id = false
  end.
Proof.
  rewrite findItemBy_find.
  destruct (find _ (preorder items)) as [n|] eqn:E.
  - apply find_some in E. exact E.
  - intros n Hn. apply (find_none _ _ E n Hn).
Qed.

Lemma findChildren_found id items n :
  findItemBy strictEq id items = Some n ->
  hasChildren n = true ->
  findChildren id items = childrenOf n.
Proof.
  intros Hfind Hc.
  assert (H : Forall (fun it =>
    (forall m, findItemVisit strictEq id it = Some m -> hasChildren m = true ->
               findChildrenVisit id it = Some (childrenOf m)) /\
    (findItemVisit strictEq id it = None -> findChildrenVisit id it = None))
    items).
  { apply Forall_forall. intros it _. apply findChildrenVisit_agrees. }
  apply (proj1 (findChildren_agrees_of_nodes id items H) n Hfind Hc).
Qed.

Lemma currentItems_in_tree p s x :
  filterNarrows p ->
  In x (currentItems p s) ->
  In x (preorder (items p)).
Proof.
  intros Hf. unfold currentItems.
  destruct (nonEmptyString (searchQuery s));
    [|apply getCurrentItems_in_tree].
  destruct (filterItems p) as [filter|] eqn:E;
    [|apply getCurrentItems_in_tree].
  intros Hx. apply (getCurrentItems_in_tree p s), (Hf filter E _ _ _ Hx).
Qed.

(** ** Properties of the lookups, the handlers and their runs *)

Section WidgetFacts.
Variable StringToNumber : string -> option Z.

Lemma looseEq_refl a : looseEq StringToNumber a a = true.
Proof. destruct a; simpl; [apply Z.eqb_refl | apply String.eqb_refl]. Qed.

Lemma looseEq_sameType a b :
  sameType a b = true -> looseEq StringToNumber a b = strictEq a b.
Proof. destruct a, b; simpl; intros H; (reflexivity || discriminate). Qed.

Lemma run_app p evs1 evs2 s :
  run StringToNumber p (evs1 ++ evs2) s =
  run StringToNumber p evs2 (run StringToNumber p evs1 s).
Proof.
  revert s. induction evs1 as [|ev evs1 IH]; intros s; [reflexivity|].
  cbn [app run]. apply IH.
Qed.

(** X1: what [findItem] returns is a node of the tree that compares equal
    to the id, and it returns [null] only when no node of the tree
    does. *)
Theorem findItem_found_or_absent eqb id items :
  match findItemBy eqb id items with
  | Some n => In n (preorder items) /\ eqb (itemId n) id = true
  | None => forall n, In n (preorder items) -> eqb (itemId n) id = false
  end.
Proof. apply findItemBy_cases. Qed.

(** X2: on a tree whose identifiers all have the type of the searched id,
    the [findItem] of the selected-item effect ([==]) and the [findItem] of
    [handleSelectAll] ([===]) return the same result. *)
Theorem findItem_copies_agree id items :
  (forall n, In n (preorder items) -> sameType (itemId n) id = true) ->
  findItemBy (looseEq StringToNumber) id items = findItemBy strictEq id items.
Proof.
  intros H. rewrite !findItemBy_find. apply find_agree_on.
  intros n Hn. apply looseEq_sameType, H, Hn.
Qed.

(** X3: [findChildren] returns either the empty list or the children of a
    node of the tree whose identifier is the id; in particular an id no
    node carries gives the empty list. *)
Theorem findChildren_empty_or_children_of_match id items :
  (findChildren id items = [] \/
   exists n, In n (preorder items) /\ strictEq (itemId n) id = true /\
             findChildren id items = childrenOf n) /\
  ((forall n, In n (preorder items) -> strictEq (itemId n) id = false) ->
   findChildren id items = []).
Proof.
  split; [apply findChildren_result|].
  intros Hnone.
  destruct (findChildren_result id items) as [H | (n & Hn & Hid & _)];
    [exact H|].
  rewrite (Hnone n Hn) in Hid. discriminate.
Qed.

(** X4: when the node [findItem] resolves for an id has children,
    [findChildren] returns exactly the children of that node. *)
Theorem findChildren_of_found_node id items n :
  findItemBy strictEq id items = Some n ->
  hasChildren n = true ->
  findChildren id items = childrenOf n.
Proof. apply findChildren_found. Qed.

(** X5: when [filterItems] only narrows the list it is given, every item
    [currentItems] shows is a node of the tree. *)
Theorem currentItems_are_tree_nodes p s x :
  filterNarrows p ->
  In x (currentItems p s) ->
  In x (preorder (items p)).
Proof. apply currentItems_in_tree. Qed.

Lemma dispatch_keeps_tree_nodes p ev s :
  filterNarrows p ->
  rendered p s ev ->
  (forall n, selectedItem s = Some n -> In n (preorder (items p))) /\
  Forall (entryOfTree (items p)) (navigationPath s) ->
  (forall n, selectedItem (fst (dispatch StringToNumber p ev s)) = Some n ->
             In n (preorder (items p))) /\
  Forall (entryOfTree (items p))
    (navigationPath (fst (dispatch StringToNumber p ev s))).
Proof.
  intros Hf Hr [Hsel Hpath]. destruct ev; cbn [dispatch].
  - split; assumption.
  - destruct Hr as [_ Hin].
    apply (currentItems_in_tree p s item Hf) in Hin.
    destruct (isDisabled p item) eqn:Hd.
    + rewrite handleItemClick_disabled by exact Hd. split; assumption.
    + destruct (hasChildren item) eqn:Hc.
      * rewrite handleItemClick_descend by assumption.
        cbn [fst navigationPath selectedItem]. split; [exact Hsel|].
        apply Forall_app. split; [exact Hpath|]. constructor; [|constructor].
        exists item. cbn [navId navLabel]. repeat split; assumption.
      * rewrite handleItemClick_leaf by assumption.
        cbn [fst navigationPath selectedItem]. split; [|exact Hpath].
        intros n [= <-]. exact Hin.
  - rewrite handleBack_run. cbn [fst navigationPath selectedItem].
    split; [exact Hsel|]. apply Forall_firstn_keeps, Hpath.
  - rewrite handleClose_run. cbn [fst navigationPath selectedItem].
    split; [exact Hsel | constructor].
  - unfold toggleSearch. destruct (isSearching s); split; assumption.
  - split; assumption.
  - unfold handleSelectAll.
    destruct (truthyOpt (currentParentId (navigationPath s)));
      [|split; assumption].
    destruct (currentParentId (navigationPath s)) as [i|];
      [|split; assumption].
    pose proof (findItemBy_cases strictEq i (items p)) as Hfound.
    destruct (findItemBy strictEq i (items p)) as [m|]; [|split; assumption].
    rewrite selectSequence_run. cbn [fst navigationPath selectedItem].
    split; [|exact Hpath]. intros n [= <-]. apply Hfound.
  - rewrite resyncSelected_run. cbn [fst navigationPath selectedItem].
    split; [|exact Hpath]. destruct selectedItemId as [i|]; [|discriminate].
    intros n Hn. apply find_some in Hn. apply Hn.
Qed.

(** X6: when [filterItems] only narrows, in every reachable state the
    resolved selection, if any, is a node of the tree, and every entry of
    the navigation path carries the id and the label of a node of the tree
    that has children. *)
Theorem reachable_selection_and_path_from_tree p s :
  filterNarrows p ->
  reachable StringToNumber p s ->
  (forall n, selectedItem s = Some n -> In n (preorder (items p))) /\
  Forall (entryOfTree (items p)) (navigationPath s).
Proof.
  intros Hf Hr. induction Hr as [|s ev _ IH Hev].
  - split; [discriminate | constructor].
  - apply dispatch_keeps_tree_nodes; assumption.
Qed.

Lemma reachable_query_invariant p s :
  reachable StringToNumber p s ->
  isSearching s = false ->
  searchQuery s = "".
Proof.
  intros Hr. induction Hr as [|s ev _ IH Hev]; [reflexivity|].
  destruct ev; cbn [dispatch].
  - exact IH.
  - destruct (isDisabled p item) eqn:Hd.
    + rewrite handleItemClick_disabled by exact Hd. exact IH.
    + destruct (hasChildren item) eqn:Hc.
      * rewrite handleItemClick_descend by assumption. exact IH.
      * rewrite handleItemClick_leaf by assumption. reflexivity.
  - reflexivity.
  - reflexivity.
  - unfold toggleSearch. destruct (isSearching s); [reflexivity|].
    cbn. discriminate.
  - destruct Hev as [_ Hs]. cbn. rewrite Hs. discriminate.
  - unfold handleSelectAll.
    destruct (truthyOpt (currentParentId (navigationPath s))); [|exact IH].
    destruct (currentParentId (navigationPath s)) as [i|]; [|exact IH].
    destruct (findItemBy strictEq i (items p)); [reflexivity | exact IH].
  - rewrite resyncSelected_run. exact IH.
Qed.

(** X7: in every reachable state a non-empty search query exists only in
    search mode: when [isSearching] is false the query is empty. *)
Theorem reachable_query_only_while_searching p s :
  reachable StringToNumber p s ->
  isSearching s = false ->
  searchQuery s = "".
Proof. apply reachable_query_invariant. Qed.

(** X8: whatever the event and the state, an [onSelect] call among the
    effects of the handler is its only effect, carries the navigation path
    of the state the handler ran on, and leaves the dropdown closed, the
    query empty, search mode off and the item recorded as the selection;
    the event is a click on an enabled leaf or "select this level" on the
    node [findItem] resolves for the last path entry. *)
Theorem onSelect_only_on_selection p ev s item path :
  In (OnSelect item path) (snd (dispatch StringToNumber p ev s)) ->
  snd (dispatch StringToNumber p ev s) = [OnSelect item path] /\
  path = navigationPath s /\
  isOpen (fst (dispatch StringToNumber p ev s)) = false /\
  searchQuery (fst (dispatch StringToNumber p ev s)) = "" /\
  isSearching (fst (dispatch StringToNumber p ev s)) = false /\
  selectedItem (fst (dispatch StringToNumber p ev s)) = Some item /\
  ((ev = EvItemClick item /\ isDisabled p item = false /\
    hasChildren item = false) \/
   (ev = EvSelectAll /\
    exists id, currentParentId (navigationPath s) = Some id /\
               truthy id = true /\
               findItemBy strictEq id (items p) = Some item)).
Proof.
  destruct ev; cbn [dispatch].
  - intros [].
  - destruct (isDisabled p item0) eqn:Hd.
    + rewrite handleItemClick_disabled by exact Hd. intros [].
    + destruct (hasChildren item0) eqn:Hc.
      * rewrite handleItemClick_descend by assumption. cbn [snd].
        destruct (isSearching s); [intros [H|[]]; discriminate | intros []].
      * rewrite handleItemClick_leaf by assumption. cbn [fst snd].
        intros [[= <- <-] | []]. repeat split. left. repeat split; assumption.
  - intros [].
  - intros [].
  - unfold toggleSearch. destruct (isSearching s); cbn;
      [intros [] | intros [H|[]]; discriminate].
  - intros [].
  - unfold handleSelectAll.
    destruct (truthyOpt (currentParentId (navigationPath s))) eqn:Ht;
      [|intros []].
    destruct (currentParentId (navigationPath s)) as [i|] eqn:Hi;
      [|intros []].
    destruct (findItemBy strictEq i (items p)) as [m|] eqn:Hm; [|intros []].
    rewrite selectSequence_run. cbn [fst snd].
    intros [[= <- <-] | []]. repeat split. right. split; [reflexivity|].
    exists i. repeat split; assumption.
  - rewrite resyncSelected_run. intros [].
Qed.

(** X9: after the click on an enabled node with children whose id is
    truthy and which is the node [findItem] resolves for that id,
    [getCurrentItems] is the list of the children of that node. *)
Theorem descend_shows_children p s item :
  isDisabled p item = false ->
  hasChildren item = true ->
  truthy (itemId item) = true ->
  findItemBy strictEq (itemId item) (items p) = Some item ->
  getCurrentItems p (fst (handleItemClick p s item s)) = childrenOf item.
Proof.
  intros Hd Hc Ht Hfind. rewrite handleItemClick_descend by assumption.
  unfold getCurrentItems. cbn [fst navigationPath].
  rewrite currentParentId_snoc. cbn [navId truthyOpt]. rewrite Ht.
  cbn [negb]. apply findChildren_found; assumption.
Qed.

(** X10: under the same conditions, "select this level" right after the
    descent calls [onSelect] with the node that was entered and the path
    that ends with the entry of that node. *)
Theorem descend_then_select_all_selects_node p s item :
  isDisabled p item = false ->
  hasChildren item = true ->
  truthy (itemId item) = true ->
  findItemBy strictEq (itemId item) (items p) = Some item ->
  snd (handleSelectAll p (fst (handleItemClick p s item s))
         (fst (handleItemClick p s item s))) =
  [OnSelect item
     (navigationPath s ++
        [mkNav (itemId item) (itemLabel item)
           (currentParentId (navigationPath s))])].
Proof.
  intros Hd Hc Ht Hfind. rewrite handleItemClick_descend by assumption.
  unfold handleSelectAll. cbn [fst navigationPath].
  rewrite currentParentId_snoc. cbn [navId truthyOpt]. rewrite Ht, Hfind.
  reflexivity.
Qed.

(** X11: clicking a sequence of enabled nodes with children and then
    pressing Back as many times gives back the navigation path the run
    started from. *)
Theorem descents_then_backs_restore_path p its s :
  Forall (fun it => isDisabled p it = false /\ hasChildren it = true) its ->
  navigationPath
    (run StringToNumber p
       (map EvItemClick its ++ repeat EvBack (List.length its)) s) =
  navigationPath s.
Proof.
  intros H. revert s. induction H as [|it its [Hd Hc] _ IH]; intros s.
  - reflexivity.
  - cbn [map List.length repeat]. rewrite repeat_cons, app_assoc.
    rewrite run_app. cbn [run dispatch]. rewrite handleBack_run.
    cbn [fst navigationPath]. cbn [app run dispatch]. rewrite IH.
    rewrite handleItemClick_descend by assumption. cbn [fst navigationPath].
    apply dropLast_snoc.
Qed.

(** X12: when a node of the tree carries the selected id, the effect
    resolves the selection to a node of the tree that compares equal
    ([==]) to the id: it is never none. *)
Theorem resync_resolves_present_id p id s n :
  In n (preorder (items p)) ->
  itemId n = id ->
  exists m,
    selectedItem (fst (resyncSelected StringToNumber p (Some id) s)) = Some m /\
    In m (preorder (items p)) /\
    looseEq StringToNumber (itemId m) id = true.
Proof.
  intros Hn <-. cbn [resyncSelected setSelectedItem fst selectedItem].
  pose proof (findItemBy_cases (looseEq StringToNumber) (itemId n) (items p))
    as H.
  destruct (findItemBy (looseEq StringToNumber) (itemId n) (items p)) as [m|].
  - exists m. split; [reflexivity | exact H].
  - specialize (H n Hn). rewrite looseEq_refl in H. discriminate.
Qed.

(** X13: from any state, a click outside followed by a click on the
    trigger opens the dropdown at the root, with search off and the query
    empty, and [currentItems] is the top-level list; the selection is
    kept. *)
Theorem click_outside_then_trigger_opens_root p s :
  run StringToNumber p [EvClickOutside; EvTrigger] s =
  mkState true [] "" false (selectedItem s) /\
  currentItems p (run StringToNumber p [EvClickOutside; EvTrigger] s) =
  items p.
Proof. split; reflexivity. Qed.

(** X14: when the last entry of the path has a truthy id that no node of
    the tree carries, [getCurrentItems] is empty. *)
Theorem getCurrentItems_unknown_parent_empty p s id :
  currentParentId (navigationPath s) = Some id ->
  truthy id = true ->
  (forall n, In n (preorder (items p)) -> strictEq (itemId n) id = false) ->
  getCurrentItems p s = [].
Proof.
  intros Hid Ht Hnone. unfold getCurrentItems. rewrite Hid.
  cbn [truthyOpt]. rewrite Ht. cbn [negb].
  destruct (findChildren_result id (items p)) as [H | (n & Hn & Hm & _)];
    [exact H|].
  rewrite (Hnone n Hn) in Hm. discriminate.
Qed.

(** X15: after the click on an enabled leaf, the effect run with the id
    of that leaf changes nothing, provided the leaf is the node [findItem]
    ([==]) resolves for its id. *)
Theorem leaf_click_then_resync_keeps_selection p s item :
  isDisabled p item = false ->
  hasChildren item = false ->
  findItemBy (looseEq StringToNumber) (itemId item) (items p) = Some item ->
  dispatch StringToNumber p (EvSelectedItemId (Some (itemId item)))
    (fst (dispatch StringToNumber p (EvItemClick item) s)) =
  (fst (dispatch StringToNumber p (EvItemClick item) s), []).
Proof.
  intros Hd Hc Hfind. cbn [dispatch].
  rewrite handleItemClick_leaf by assumption.
  cbn [resyncSelected fst]. rewrite Hfind. reflexivity.
Qed.

(** X16: pressing Back [k] times keeps the first [length - k] entries of
    the navigation path; at the root, and once the root is reached, Back
    leaves the path empty. *)
Theorem backs_keep_prefix p k s :
  navigationPath (run StringToNumber p (repeat EvBack k) s) =
  firstn (List.length (navigationPath s) - k)%nat (navigationPath s).
Proof.
  revert s. induction k as [|k IH]; intros s.
  - cbn [repeat run]. rewrite Nat.sub_0_r, firstn_all. reflexivity.
  - cbn [repeat run dispatch]. rewrite IH, handleBack_run.
    cbn [fst navigationPath]. unfold dropLast.
    rewrite firstn_firstn, length_firstn. f_equal. lia.
Qed.

(** X17: in a reachable state with search off, switching search on, typing
    a query and switching search off again gives back the same state. *)
Theorem search_round_trip p s q :
  reachable StringToNumber p s ->
  isSearching s = false ->
  run StringToNumber p [EvToggleSearch; EvSearchInput q; EvToggleSearch] s = s.
Proof.
  intros Hr Hs. pose proof (reachable_query_invariant p s Hr Hs) as Hq.
  destruct s as [o path query searching sel]. cbn in Hs, Hq. subst.
  reflexivity.
Qed.

End WidgetFacts.

(** ** Instances of the properties above *)

Lemma filterNarrows_sampleProps : filterNarrows sampleProps.
Proof. intros f H. discriminate H. Qed.

Lemma filterNarrows_labelFilterProps : filterNarrows labelFilterProps.
Proof.
  intros f [= <-] l q x Hx. apply filter_In in Hx. apply Hx.
Qed.

Lemma findItem_copies_agree_witness :
  (forall n, In n (preorder sampleTree) ->
             sameType (itemId n) (IdNum 11) = true) /\
  findItemBy (looseEq decimalToNumber) (IdNum 11) sampleTree =
  findItemBy strictEq (IdNum 11) sampleTree.
Proof.
  assert (H : forall n, In n (preorder sampleTree) ->
                        sameType (itemId n) (IdNum 11) = true).
  { cbn. intros n [<- | [<- | [<- | []]]]; reflexivity. }
  split; [exact H|].
  exact (findItem_copies_agree decimalToNumber (IdNum 11) sampleTree H).
Defined.

Lemma findChildren_of_found_node_witness :
  findItemBy strictEq (IdNum 1) sampleTree = Some nodeA /\
  hasChildren nodeA = true /\
  findChildren (IdNum 1) sampleTree = [nodeA1].
Proof.
  split; [reflexivity|]. split; [reflexivity|].
  exact (findChildren_of_found_node (IdNum 1) sampleTree nodeA
           eq_refl eq_refl).
Defined.

Lemma currentItems_are_tree_nodes_witness :
  filterNarrows labelFilterProps /\
  In nodeA (currentItems labelFilterProps searchingAtRoot) /\
  In nodeA (preorder (items labelFilterProps)).
Proof.
  assert (Hin : In nodeA (currentItems labelFilterProps searchingAtRoot))
    by (cbn; tauto).
  split; [exact filterNarrows_labelFilterProps|]. split; [exact Hin|].
  exact (currentItems_are_tree_nodes labelFilterProps searchingAtRoot nodeA
           filterNarrows_labelFilterProps Hin).
Defined.

Lemma reachable_selection_and_path_from_tree_witness :
  filterNarrows sampleProps /\
  reachable decimalToNumber sampleProps atLevelA /\
  Forall (entryOfTree (items sampleProps)) (navigationPath atLevelA).
Proof.
  split; [exact filterNarrows_sampleProps|].
  split; [exact reachable_atLevelA|].
  exact (proj2 (reachable_selection_and_path_from_tree decimalToNumber
                  sampleProps atLevelA filterNarrows_sampleProps
                  reachable_atLevelA)).
Defined.

Lemma reachable_query_only_while_searching_witness :
  reachable decimalToNumber sampleProps atLevelA /\
  isSearching atLevelA = false /\
  searchQuery atLevelA = "".
Proof.
  split; [exact reachable_atLevelA|]. split; [reflexivity|].
  exact (reachable_query_only_while_searching decimalToNumber sampleProps
           atLevelA reachable_atLevelA eq_refl).
Defined.

Lemma onSelect_only_on_selection_witness :
  In (OnSelect nodeA1 [entryA])
    (snd (dispatch decimalToNumber sampleProps (EvItemClick nodeA1)
            atLevelA)) /\
  snd (dispatch decimalToNumber sampleProps (EvItemClick nodeA1) atLevelA) =
  [OnSelect nodeA1 [entryA]].
Proof.
  assert (Hin : In (OnSelect nodeA1 [entryA])
    (snd (dispatch decimalToNumber sampleProps (EvItemClick nodeA1)
            atLevelA))) by (cbn; tauto).
  split; [exact Hin|].
  exact (proj1 (onSelect_only_on_selection decimalToNumber sampleProps
                  (EvItemClick nodeA1) atLevelA nodeA1 [entryA] Hin)).
Defined.

Lemma descend_shows_children_witness :
  isDisabled sampleProps nodeA = false /\
  hasChildren nodeA = true /\
  truthy (itemId nodeA) = true /\
  findItemBy strictEq (itemId nodeA) (items sampleProps) = Some nodeA /\
  getCurrentItems sampleProps
    (fst (handleItemClick sampleProps initialState nodeA initialState)) =
  [nodeA1].
Proof.
  repeat (split; [reflexivity|]).
  exact (descend_shows_children sampleProps initialState nodeA
           eq_refl eq_refl eq_refl eq_refl).
Defined.

Lemma descend_then_select_all_selects_node_witness :
  isDisabled sampleProps nodeA = false /\
  hasChildren nodeA = true /\
  truthy (itemId nodeA) = true /\
  findItemBy strictEq (itemId nodeA) (items sampleProps) = Some nodeA /\
  snd (handleSelectAll sampleProps
         (fst (handleItemClick sampleProps initialState nodeA initialState))
         (fst (handleItemClick sampleProps initialState nodeA initialState)))
  = [OnSelect nodeA [entryA]].
Proof.
  repeat (split; [reflexivity|]).
  exact (descend_then_select_all_selects_node sampleProps initialState nodeA
           eq_refl eq_refl eq_refl eq_refl).
Defined.

Lemma descents_then_backs_restore_path_witness :
  Forall (fun it => isDisabled sampleProps it = false /\
                    hasChildren it = true) [nodeA; nodeA] /\
  navigationPath
    (run decimalToNumber sampleProps
       [EvItemClick nodeA; EvItemClick nodeA; EvBack; EvBack] atLevelA) =
  [entryA].
Proof.
  assert (H : Forall (fun it => isDisabled sampleProps it = false /\
                                hasChildren it = true) [nodeA; nodeA])
    by (repeat constructor).
  split; [exact H|].
  exact (descents_then_backs_restore_path decimalToNumber sampleProps
           [nodeA; nodeA] atLevelA H).
Defined.

Lemma resync_resolves_present_id_witness :
  In nodeA1 (preorder (items sampleProps)) /\
  itemId nodeA1 = IdNum 11 /\
  exists m,
    selectedItem
      (fst (resyncSelected decimalToNumber sampleProps (Some (IdNum 11))
              initialState)) = Some m /\
    In m (preorder (items sampleProps)) /\
    looseEq decimalToNumber (itemId m) (IdNum 11) = true.
Proof.
  assert (Hin : In nodeA1 (preorder (items sampleProps))) by (cbn; tauto).
  split; [exact Hin|]. split; [reflexivity|].
  exact (resync_resolves_present_id decimalToNumber sampleProps (IdNum 11)
           initialState nodeA1 Hin eq_refl).
Defined.

Lemma getCurrentItems_unknown_parent_empty_witness :
  currentParentId [mkNav (IdNum 99) "gone" None] = Some (IdNum 99) /\
  truthy (IdNum 99) = true /\
  (forall n, In n (preorder (items sampleProps)) ->
             strictEq (itemId n) (IdNum 99) = false) /\
  getCurrentItems sampleProps
    (mkState true [mkNav (IdNum 99) "gone" None] "" false None) = [].
Proof.
  assert (H : forall n, In n (preorder (items sampleProps)) ->
                        strictEq (itemId n) (IdNum 99) = false).
  { cbn. intros n [<- | [<- | [<- | []]]]; reflexivity. }
  split; [reflexivity|]. split; [reflexivity|]. split; [exact H|].
  exact (getCurrentItems_unknown_parent_empty sampleProps
           (mkState true [mkNav (IdNum 99) "gone" None] "" false None)
           (IdNum 99) eq_refl eq_refl H).
Defined.

Lemma leaf_click_then_resync_keeps_selection_witness :
  isDisabled sampleProps nodeA1 = false /\
  hasChildren nodeA1 = false /\
  findItemBy (looseEq decimalToNumber) (itemId nodeA1) (items sampleProps) =
  Some nodeA1 /\
  dispatch decimalToNumber sampleProps (EvSelectedItemId (Some (IdNum 11)))
    (mkState false [entryA] "" false (Some nodeA1)) =
  (mkState false [entryA] "" false (Some nodeA1), []).
Proof.
  repeat (split; [reflexivity|]).
  exact (leaf_click_then_resync_keeps_selection decimalToNumber sampleProps
           atLevelA nodeA1 eq_refl eq_refl eq_refl).
Defined.

Lemma search_round_trip_witness :
  reachable decimalToNumber sampleProps atLevelA /\
  isSearching atLevelA = false /\
  run decimalToNumber sampleProps
    [EvToggleSearch; EvSearchInput "B"; EvToggleSearch] atLevelA = atLevelA.
Proof.
  split; [exact reachable_atLevelA|]. split; [reflexivity|].
  exact (search_round_trip decimalToNumber sampleProps atLevelA "B"
           reachable_atLevelA eq_refl).
Defined.

